(** * The replication state machine of [include/raft_server.h]

    [ReplicationState] implements [braft::StateMachine]: it sits between
    the consensus library (a [braft::Node], reached through the raw
    pointer member [node]) and the [Store].  The header defines a handful
    of member functions inline ([has_leader_term], [is_ready],
    [shutdown], [join], [wait], [notify] and the leadership and
    configuration callbacks); every other member function is only
    declared there.

    The embedding is a state monad over the object's members, together
    with a record of the calls the object makes on its collaborators
    (the log, the consensus node, the condition variable, the store,
    [write]). *)

From Stdlib Require Import ZArith QArith List String Bool Lia.
Import ListNotations.

Set Implicit Arguments.

Local Open Scope string_scope.
Local Open Scope list_scope.
Local Open Scope Z_scope.

(** ** Data *)

(** [http_req] as [on_leader_start] constructs it:
    [http_req(nullptr, "POST", "/INIT_SNAPSHOT", 0, params, "INIT_SNAPSHOT")].
    The first argument is the transport's raw request and is not kept. *)
Record http_req := {
  http_method : string;
  path_without_query : string;
  route_hash : Z;
  params : list (string * string);
  body : string
}.

Record http_res := {
  status_code : Z;
  res_body : string
}.

(** [braft::PeerId], by its printed form. *)
Definition PeerId := string.

(** What the object can see of the [braft::Node] behind [node]: whether
    [shutdown] has been requested on it.  The library stops a node only
    after such a request. *)
Record Node := {
  shutdown_requested : bool
}.

(** One committed log entry as the iterator of [on_apply] yields it:
    index, term, payload and the closure of the local waiter, if any. *)
Record Entry := {
  e_index : Z;
  e_term : Z;
  e_data : string;
  e_done : option nat
}.

(** Calls the object makes on its collaborators, in program order. *)
Inductive call : Type :=
| LogInfo (msg : string)
| LogError (msg : string)
| NodeShutdown
| NodeJoin
| NodeDelete
| NotifyAll
| CallWrite (request : http_req)
| StoreApply (operation : http_req)
| ClosureRun (waiter : nat) (response : http_res).

(** How a member function ends: it returns, the process aborts, the
    calling thread waits for ever, or a null [node] is dereferenced.
    Each carries the state reached at that point. *)
Inductive outcome (St A : Type) : Type :=
| Returns (a : A) (s : St)
| Halts (s : St)
| Blocks (s : St)
| NullDeref (s : St).

Arguments Returns {St A} a s.
Arguments Halts {St A} s.
Arguments Blocks {St A} s.
Arguments NullDeref {St A} s.

Definition state_of {St A} (o : outcome St A) : St :=
  match o with
  | Returns _ s | Halts s | Blocks s | NullDeref s => s
  end.

Definition map_state {St St' A} (f : St -> St') (o : outcome St A) : outcome St' A :=
  match o with
  | Returns a s => Returns a (f s)
  | Halts s => Halts (f s)
  | Blocks s => Blocks (f s)
  | NullDeref s => NullDeref (f s)
  end.

Definition is_write (c : call) : bool :=
  match c with
  | CallWrite _ => true
  | _ => false
  end.

Definition is_delete (c : call) : bool :=
  match c with
  | NodeDelete => true
  | _ => false
  end.

Definition is_node_call (c : call) : bool :=
  match c with
  | NodeShutdown | NodeJoin | NodeDelete => true
  | _ => false
  end.

(** The operations handed to the store, in the order of the calls. *)
Fixpoint store_operations (cs : list call) : list http_req :=
  match cs with
  | [] => []
  | StoreApply op :: cs' => op :: store_operations cs'
  | _ :: cs' => store_operations cs'
  end.

(** The request of the dummy write of [on_leader_start]. *)
Definition init_snapshot_request : http_req :=
  {| http_method := "POST";
     path_without_query := "/INIT_SNAPSHOT";
     route_hash := 0;
     params := [];
     body := "INIT_SNAPSHOT" |}.

(** The members of [class ReplicationState] (lines 96-127).  The mutexes
    and the condition variable carry no data; [thread_pool] and
    [message_dispatcher] are never used by the inline code.  [shut_down]
    is a reference member: the field holds the referenced flag.  The two
    [size_t] members and the [int64_t] term are integers in their range. *)
Record ReplicationState (Store : Type) := {
  node : option Node;
  leader_term : Z;
  peers : list PeerId;
  store : Store;
  catchup_min_sequence_diff : Z;
  catch_up_threshold_percentage : Z;
  caught_up : bool;
  api_uses_ssl : bool;
  create_init_db_snapshot : bool;
  shut_down : bool;
  raft_dir_path : string;
  ext_snapshot_path : string;
  election_timeout_interval_ms : Z;
  ready : bool
}.

(** The object together with what surrounds it: the calls made so far,
    and, from the data model of the spec (the class has no such members),
    the AppliedIndex counter of the Apply Pipeline and the sequence the
    leader is known to have reached. *)
Record World (Store : Type) := {
  rs : ReplicationState Store;
  calls : list call;
  applied_index : Z;
  leader_known_sequence : Z
}.

(** ** A reference instance of the collaborators

    A store that only counts what it applied and refuses the method
    [FAULT]; a decoder that rejects the empty payload; a percentage read
    as a ratio; a [write] body that returns at once. *)

Definition counter_apply (op : http_req) (st : Z) : option (Z * http_res) :=
  if String.eqb (http_method op) "FAULT" then None
  else Some (st + 1, {| status_code := 201; res_body := body op |}).

Definition counter_sequence (st : Z) : Z := st.

Definition request_of (method payload : string) : http_req :=
  {| http_method := method; path_without_query := "/documents"; route_hash := 0;
     params := []; body := payload |}.

Definition plain_decode (payload : string) : option http_req :=
  if String.eqb payload "" then None
  else if String.eqb payload "FAULT" then Some (request_of "FAULT" payload)
  else Some (request_of "POST" payload).

Definition percent (p : Z) : Q := p # 100.

Definition write_returns (request : http_req) (s : ReplicationState Z)
  : outcome (ReplicationState Z) unit := Returns tt s.

Definition entry_of (i : Z) (payload : string) : Entry :=
  {| e_index := i; e_term := 1; e_data := payload; e_done := None |}.

(** A follower of a cluster whose leader is at sequence 1000, with
    [catchup_min_sequence_diff = 50] and a threshold of 96 per cent. *)
Definition follower_at (sequence : Z) : World Z :=
  {| rs := {| node := Some {| shutdown_requested := false |};
              leader_term := -1; peers := []; store := sequence;
              catchup_min_sequence_diff := 50;
              catch_up_threshold_percentage := 96;
              caught_up := false; api_uses_ssl := false;
              create_init_db_snapshot := true; shut_down := false;
              raft_dir_path := "/var/lib/raft"; ext_snapshot_path := "";
              election_timeout_interval_ms := 1000; ready := false |};
     calls := []; applied_index := sequence; leader_known_sequence := 1000 |}.

(** The same object before [start] created the node, or after [join]
    deleted it. *)
Definition without_node : World Z :=
  {| rs := {| node := None;
              leader_term := -1; peers := []; store := 0;
              catchup_min_sequence_diff := 50;
              catch_up_threshold_percentage := 96;
              caught_up := false; api_uses_ssl := false;
              create_init_db_snapshot := false; shut_down := false;
              raft_dir_path := "/var/lib/raft"; ext_snapshot_path := "";
              election_timeout_interval_ms := 1000; ready := false |};
     calls := []; applied_index := 0; leader_known_sequence := 0 |}.

Section ReplicationStateMachine.

(** The storage engine behind [Store* store]. [store_apply] is [None] on
    a storage fault; [current_sequence] is its applied-sequence counter. *)
Variable Store : Type.
Variable store_apply : http_req -> Store -> option (Store * http_res).
Variable current_sequence : Store -> Z.

(** The transport's decoding of an entry payload; [None] on a malformed
    payload. *)
Variable deserialize : string -> option http_req.

(** The ratio that a configured [catch_up_threshold_percentage] stands
    for. *)
Variable threshold_ratio : Z -> Q.

Definition set_node (v : option Node) (s : ReplicationState Store) : ReplicationState Store :=
  {| node := v; leader_term := leader_term s; peers := peers s; store := store s;
     catchup_min_sequence_diff := catchup_min_sequence_diff s;
     catch_up_threshold_percentage := catch_up_threshold_percentage s;
     caught_up := caught_up s; api_uses_ssl := api_uses_ssl s;
     create_init_db_snapshot := create_init_db_snapshot s; shut_down := shut_down s;
     raft_dir_path := raft_dir_path s; ext_snapshot_path := ext_snapshot_path s;
     election_timeout_interval_ms := election_timeout_interval_ms s;
     ready := ready s |}.

Definition set_leader_term (v : Z) (s : ReplicationState Store) : ReplicationState Store :=
  {| node := node s; leader_term := v; peers := peers s; store := store s;
     catchup_min_sequence_diff := catchup_min_sequence_diff s;
     catch_up_threshold_percentage := catch_up_threshold_percentage s;
     caught_up := caught_up s; api_uses_ssl := api_uses_ssl s;
     create_init_db_snapshot := create_init_db_snapshot s; shut_down := shut_down s;
     raft_dir_path := raft_dir_path s; ext_snapshot_path := ext_snapshot_path s;
     election_timeout_interval_ms := election_timeout_interval_ms s;
     ready := ready s |}.

Definition set_peers (v : list PeerId) (s : ReplicationState Store) : ReplicationState Store :=
  {| node := node s; leader_term := leader_term s; peers := v; store := store s;
     catchup_min_sequence_diff := catchup_min_sequence_diff s;
     catch_up_threshold_percentage := catch_up_threshold_percentage s;
     caught_up := caught_up s; api_uses_ssl := api_uses_ssl s;
     create_init_db_snapshot := create_init_db_snapshot s; shut_down := shut_down s;
     raft_dir_path := raft_dir_path s; ext_snapshot_path := ext_snapshot_path s;
     election_timeout_interval_ms := election_timeout_interval_ms s;
     ready := ready s |}.

Definition set_store (v : Store) (s : ReplicationState Store) : ReplicationState Store :=
  {| node := node s; leader_term := leader_term s; peers := peers s; store := v;
     catchup_min_sequence_diff := catchup_min_sequence_diff s;
     catch_up_threshold_percentage := catch_up_threshold_percentage s;
     caught_up := caught_up s; api_uses_ssl := api_uses_ssl s;
     create_init_db_snapshot := create_init_db_snapshot s; shut_down := shut_down s;
     raft_dir_path := raft_dir_path s; ext_snapshot_path := ext_snapshot_path s;
     election_timeout_interval_ms := election_timeout_interval_ms s;
     ready := ready s |}.

Definition set_caught_up (v : bool) (s : ReplicationState Store) : ReplicationState Store :=
  {| node := node s; leader_term := leader_term s; peers := peers s; store := store s;
     catchup_min_sequence_diff := catchup_min_sequence_diff s;
     catch_up_threshold_percentage := catch_up_threshold_percentage s; caught_up := v;
     api_uses_ssl := api_uses_ssl s;
     create_init_db_snapshot := create_init_db_snapshot s; shut_down := shut_down s;
     raft_dir_path := raft_dir_path s; ext_snapshot_path := ext_snapshot_path s;
     election_timeout_interval_ms := election_timeout_interval_ms s;
     ready := ready s |}.

Definition set_shut_down (v : bool) (s : ReplicationState Store) : ReplicationState Store :=
  {| node := node s; leader_term := leader_term s; peers := peers s; store := store s;
     catchup_min_sequence_diff := catchup_min_sequence_diff s;
     catch_up_threshold_percentage := catch_up_threshold_percentage s;
     caught_up := caught_up s; api_uses_ssl := api_uses_ssl s;
     create_init_db_snapshot := create_init_db_snapshot s; shut_down := v;
     raft_dir_path := raft_dir_path s; ext_snapshot_path := ext_snapshot_path s;
     election_timeout_interval_ms := election_timeout_interval_ms s;
     ready := ready s |}.

Definition set_ready (v : bool) (s : ReplicationState Store) : ReplicationState Store :=
  {| node := node s; leader_term := leader_term s; peers := peers s; store := store s;
     catchup_min_sequence_diff := catchup_min_sequence_diff s;
     catch_up_threshold_percentage := catch_up_threshold_percentage s;
     caught_up := caught_up s; api_uses_ssl := api_uses_ssl s;
     create_init_db_snapshot := create_init_db_snapshot s; shut_down := shut_down s;
     raft_dir_path := raft_dir_path s; ext_snapshot_path := ext_snapshot_path s;
     election_timeout_interval_ms := election_timeout_interval_ms s; ready := v |}.

Definition with_rs (f : ReplicationState Store -> ReplicationState Store) (w : World Store)
  : World Store :=
  {| rs := f (rs w); calls := calls w; applied_index := applied_index w;
     leader_known_sequence := leader_known_sequence w |}.

Definition with_call (c : call) (w : World Store) : World Store :=
  {| rs := rs w; calls := calls w ++ [c]; applied_index := applied_index w;
     leader_known_sequence := leader_known_sequence w |}.

Definition with_applied_index (i : Z) (w : World Store) : World Store :=
  {| rs := rs w; calls := calls w; applied_index := i;
     leader_known_sequence := leader_known_sequence w |}.

(** ** The monad of member functions *)

Definition M (A : Type) : Type := World Store -> outcome (World Store) A.

Definition ret {A} (a : A) : M A := fun w => Returns a w.

Definition bind {A B} (c : M A) (k : A -> M B) : M B :=
  fun w =>
    match c w with
    | Returns a w' => k a w'
    | Halts w' => Halts w'
    | Blocks w' => Blocks w'
    | NullDeref w' => NullDeref w'
    end.

Notation "x <- c ;; k" := (bind c (fun x => k))
  (at level 61, c at next level, right associativity).
Notation "c ;; k" := (bind c (fun _ => k))
  (at level 61, right associativity).

Definition gets {A} (f : World Store -> A) : M A := fun w => Returns (f w) w.
Definition modify (f : World Store -> World Store) : M unit := fun w => Returns tt (f w).
Definition record (c : call) : M unit := modify (with_call c).
Definition halt {A} : M A := fun w => Halts w.
Definition block {A} : M A := fun w => Blocks w.

(** The calls made while [c] runs from [w]. *)
Definition calls_during {A} (c : M A) (w : World Store) : list call :=
  skipn (List.length (calls w)) (calls (state_of (c w))).

(** [LOG(INFO) << msg] and [LOG(ERROR) << msg]; operands streamed after
    the literal are not kept. *)
Definition log_info (msg : string) : M unit := record (LogInfo msg).
Definition log_error (msg : string) : M unit := record (LogError msg).

(** [node->m(...)]: the pointer is dereferenced, which is undefined
    on a null pointer. *)
Definition deref_node : M Node :=
  fun w =>
    match node (rs w) with
    | Some n => Returns n w
    | None => NullDeref w
    end.

(** [if (node)] *)
Definition node_non_null : M bool :=
  gets (fun w => match node (rs w) with Some _ => true | None => false end).

(** [node->shutdown(nullptr)]: asks the consensus node to stop. *)
Definition node_shutdown : M unit :=
  _ <- deref_node ;;
  record NodeShutdown ;;
  modify (with_rs (set_node (Some {| shutdown_requested := true |}))).

(** [node->join()]: returns once the node is down, which the library
    brings about only after a shutdown request; without one the caller
    keeps waiting. *)
Definition node_join : M unit :=
  n <- deref_node ;;
  record NodeJoin ;;
  if shutdown_requested n then ret tt else block.

(** [delete node] *)
Definition delete_node : M unit := record NodeDelete.

(** ** Member functions defined in the header *)

(** Lines 155-157. *)
Definition has_leader_term (s : ReplicationState Store) : bool := 0 <? leader_term s.

(** Lines 159-161. *)
Definition is_ready (s : ReplicationState Store) : bool := caught_up s.

(** Lines 168-174. *)
Definition shutdown : M unit :=
  log_info "Replication state shutdown." ;;
  modify (with_rs (set_shut_down true)) ;;
  live <- node_non_null ;;
  if live then node_shutdown else ret tt.

(** Lines 177-184. *)
Definition join : M unit :=
  live <- node_non_null ;;
  if live then
    node_join ;;
    delete_node ;;
    modify (with_rs (set_node None))
  else ret tt.

(** Lines 201-205: [cv.wait(lk, [&] { return ready; }); ready = false;]. *)
Definition wait : M unit :=
  r <- gets (fun w => ready (rs w)) ;;
  if r then modify (with_rs (set_ready false)) else block.

(** Lines 207-211. *)
Definition notify : M unit :=
  modify (with_rs (set_ready true)) ;;
  record NotifyAll.

(** [write] is declared at line 145 and defined outside the header.  What
    its body does to the members of the object is [write_impl]; every
    call is recorded. *)
Variable write_impl : http_req -> ReplicationState Store -> outcome (ReplicationState Store) unit.

Definition write (request : http_req) : M unit :=
  record (CallWrite request) ;;
  fun w => map_state (fun s => with_rs (fun _ => s) w) (write_impl request (rs w)).

(** Lines 237-250. *)
Definition on_leader_start (term : Z) : M unit :=
  modify (with_rs (set_leader_term term)) ;;
  flag <- gets (fun w => create_init_db_snapshot (rs w)) ;;
  (if flag then write init_snapshot_request else ret tt) ;;
  log_info "Node becomes leader, term: ".

(** Lines 252-255. *)
Definition on_leader_stop : M unit :=
  modify (with_rs (set_leader_term (-1))) ;;
  log_info "Node stepped down : ".

(** Lines 257-259. *)
Definition on_shutdown : M unit := log_info "This node is down".

(** Lines 261-263. *)
Definition on_error : M unit := log_error "Met peering error ".

(** Lines 265-268: [conf.list_peers(&peers)] replaces the set by the
    peers of the configuration. *)
Definition on_configuration_committed (conf : list PeerId) : M unit :=
  log_info "Configuration of this group is " ;;
  modify (with_rs (set_peers (nodup string_dec conf))).

(** Lines 270-272. *)
Definition on_start_following : M unit := log_info "Node starts following ".

(** Lines 274-276. *)
Definition on_stop_following : M unit := log_info "Node stops following ".

(** The member functions above, as the calls a client or the consensus
    library can make on the object. *)
Inductive method : Type :=
| Shutdown
| Join
| Wait
| Notify
| Write (request : http_req)
| OnLeaderStart (term : Z)
| OnLeaderStop
| OnShutdown
| OnError
| OnConfigurationCommitted (conf : list PeerId)
| OnStartFollowing
| OnStopFollowing.

Definition invoke (m : method) : M unit :=
  match m with
  | Shutdown => shutdown
  | Join => join
  | Wait => wait
  | Notify => notify
  | Write request => write request
  | OnLeaderStart term => on_leader_start term
  | OnLeaderStop => on_leader_stop
  | OnShutdown => on_shutdown
  | OnError => on_error
  | OnConfigurationCommitted conf => on_configuration_committed conf
  | OnStartFollowing => on_start_following
  | OnStopFollowing => on_stop_following
  end.

Fixpoint invoke_all (ms : list method) : M unit :=
  match ms with
  | [] => ret tt
  | m :: ms' => invoke m ;; invoke_all ms'
  end.

Definition is_leadership_callback (m : method) : bool :=
  match m with
  | OnLeaderStart _ | OnLeaderStop => true
  | _ => false
  end.

(** Whether the node believes itself leader after the callbacks in [ms],
    having believed [b] before them. *)
Fixpoint believes_leader (b : bool) (ms : list method) : bool :=
  match ms with
  | [] => b
  | OnLeaderStart _ :: ms' => believes_leader true ms'
  | OnLeaderStop :: ms' => believes_leader false ms'
  | _ :: ms' => believes_leader b ms'
  end.

(** Every term the consensus library announces is positive. *)
Fixpoint positive_terms (ms : list method) : bool :=
  match ms with
  | [] => true
  | OnLeaderStart term :: ms' => (0 <? term) && positive_terms ms'
  | _ :: ms' => positive_terms ms'
  end.

(** The stored term is one the callbacks can have left: -1 or positive. *)
Definition term_well_formed (s : ReplicationState Store) : Prop :=
  leader_term s = -1 \/ leader_term s > 0.

(** Whether a call of [m] from [w] reaches the body of [write]. *)
Definition reaches_write (m : method) (w : World Store) : bool :=
  match m with
  | Write _ => true
  | OnLeaderStart _ => create_init_db_snapshot (rs w)
  | _ => false
  end.

(** The two calls that take the node down. *)
Definition is_teardown (m : method) : bool :=
  match m with
  | Shutdown | Join => true
  | _ => false
  end.

(** The number of [delete node] executed so far. *)
Definition deletes (w : World Store) : nat := List.length (filter is_delete (calls w)).

(** 1 while the object holds a node, 0 once the member is null. *)
Definition node_count (w : World Store) : nat :=
  match node (rs w) with
  | Some _ => 1%nat
  | None => 0%nat
  end.

(** ** The Apply Pipeline and the Catch-Up Monitor *)

(** Modelled from the spec: the readiness rule of the Catch-Up Monitor
    (4.4); the header only declares the members it reads and writes.
    With [gap = leaderKnownSequence - localAppliedSequence] the node is
    caught up when [gap <= catchupMinSequenceDiff] or
    [localAppliedSequence / leaderKnownSequence >= catchUpThresholdPercentage]. *)
Definition caught_up_when (min_diff threshold l k : Z) : bool :=
  let gap := k - l in
  (gap <=? min_diff) || Qle_bool (threshold_ratio threshold) (inject_Z l / inject_Z k).

(** Modelled from the spec: the recomputation of the readiness flag from
    the sequence comparison (3, ReadinessFlag); its code is not in the
    header. *)
Definition refresh_catchup_status : M unit :=
  modify (fun w =>
    with_rs (set_caught_up
      (caught_up_when (catchup_min_sequence_diff (rs w))
                      (catch_up_threshold_percentage (rs w))
                      (current_sequence (store (rs w)))
                      (leader_known_sequence w))) w).

(** Modelled from the spec: firing the Completion Handle of an entry
    (4.1); an entry without a local waiter fires nothing. *)
Definition resolve (done : option nat) (response : http_res) : M unit :=
  match done with
  | Some waiter => record (ClosureRun waiter response)
  | None => ret tt
  end.

(** Modelled from the spec: one step of [on_apply] (4.1, 7c), whose body
    is not in the header.  The entry is deserialized and applied to the
    store, AppliedIndex advances, the Completion Handle is resolved and
    readiness is recomputed; a malformed entry or a storage fault is
    logged and the process halts. *)
Definition apply_entry (e : Entry) : M unit :=
  match deserialize (e_data e) with
  | None => log_error "malformed entry" ;; halt
  | Some op =>
    record (StoreApply op) ;;
    st <- gets (fun w => store (rs w)) ;;
    match store_apply op st with
    | None => log_error "store fault" ;; halt
    | Some (st', response) =>
      modify (with_rs (set_store st')) ;;
      modify (fun w => with_applied_index (applied_index w + 1) w) ;;
      resolve (e_done e) response ;;
      refresh_catchup_status
    end
  end.

(** Modelled from the spec: [on_apply] (declared at line 220) consumes
    the committed entries of the iterator in order, one at a time. *)
Fixpoint on_apply (iter : list Entry) : M unit :=
  match iter with
  | [] => ret tt
  | e :: rest => apply_entry e ;; on_apply rest
  end.

(** The store reached by applying the entries of [iter] one after the
    other, or [None] if one of them cannot be applied. *)
Fixpoint replay (iter : list Entry) (st : Store) : option Store :=
  match iter with
  | [] => Some st
  | e :: rest =>
    match deserialize (e_data e) with
    | None => None
    | Some op =>
      match store_apply op st with
      | None => None
      | Some (st', _) => replay rest st'
      end
    end
  end.

(** The entry cannot be applied to [st]: it is malformed or the store
    faults on it. *)
Definition entry_fails (e : Entry) (st : Store) : bool :=
  match deserialize (e_data e) with
  | None => true
  | Some op =>
    match store_apply op st with
    | None => true
    | Some _ => false
    end
  end.

(** The state [apply_entry] returns in when the entry decodes to [op]
    and the store answers [(st', response)]. *)
Definition applied (e : Entry) (op : http_req) (st' : Store) (response : http_res)
  (w : World Store) : World Store :=
  let w1 := with_rs (set_store st') (with_call (StoreApply op) w) in
  let w2 := with_applied_index (applied_index w1 + 1) w1 in
  let w3 := match e_done e with
            | Some waiter => with_call (ClosureRun waiter response) w2
            | None => w2
            end in
  with_rs (set_caught_up
    (caught_up_when (catchup_min_sequence_diff (rs w3))
                    (catch_up_threshold_percentage (rs w3))
                    (current_sequence (store (rs w3)))
                    (leader_known_sequence w3))) w3.

(** The readiness flag agrees with the readiness rule at the current
    sequences. *)
Definition readiness_current (w : World Store) : Prop :=
  is_ready (rs w) =
  caught_up_when (catchup_min_sequence_diff (rs w))
                 (catch_up_threshold_percentage (rs w))
                 (current_sequence (store (rs w)))
                 (leader_known_sequence w).

(** ** Further vocabulary for the inline member functions *)

(** [c] called [n] times in a row. *)
Fixpoint repeat_call (n : nat) (c : M unit) : M unit :=
  match n with
  | O => ret tt
  | S n' => c ;; repeat_call n' c
  end.

Definition is_node_shutdown (c : call) : bool :=
  match c with
  | NodeShutdown => true
  | _ => false
  end.

(** The number of [node->shutdown(nullptr)] calls made so far. *)
Definition node_shutdowns (w : World Store) : nat :=
  List.length (filter is_node_shutdown (calls w)).

(** Every [delete node] in [cs] comes directly after a [node->join()];
    [after_join] tells whether the call before [cs] was one. *)
Fixpoint delete_follows_join (after_join : bool) (cs : list call) : bool :=
  match cs with
  | [] => true
  | NodeDelete :: cs' => after_join && delete_follows_join false cs'
  | NodeJoin :: cs' => delete_follows_join true cs'
  | _ :: cs' => delete_follows_join false cs'
  end.

(** Whether the last call of [cs] is a [node->join()]. *)
Fixpoint ends_with_join (after_join : bool) (cs : list call) : bool :=
  match cs with
  | [] => after_join
  | NodeJoin :: cs' => ends_with_join true cs'
  | _ :: cs' => ends_with_join false cs'
  end.

(** The states in which a call of [m] waits: [join] on a node that was
    never asked to stop, [wait] while [ready] is false. *)
Definition blocks_on (m : method) (w : World Store) : bool :=
  match m with
  | Join =>
    match node (rs w) with
    | Some n => negb (shutdown_requested n)
    | None => false
    end
  | Wait => negb (ready (rs w))
  | _ => false
  end.

(** The member functions whose code is wholly in the header: all but
    [write] and [on_leader_start], which may call it. *)
Definition outside_write (m : method) : bool :=
  match m with
  | Write _ | OnLeaderStart _ => false
  | _ => true
  end.

(** ** Proof tools *)

Ltac unfold_monad :=
  unfold bind, ret, gets, modify, record, log_info, log_error, halt, block,
    deref_node, node_non_null, delete_node in *.

Lemma skipn_calls (l l' : list call) : skipn (List.length l) (l ++ l') = l'.
Proof.
  induction l as [| c l IH]; simpl; [reflexivity | exact IH].
Qed.

Lemma store_operations_app (cs1 cs2 : list call) :
  store_operations (cs1 ++ cs2) = store_operations cs1 ++ store_operations cs2.
Proof.
  induction cs1 as [| c cs1 IH]; simpl; [reflexivity |].
  destruct c; simpl; rewrite ?IH; reflexivity.
Qed.

(** ** [shutdown] and [join] *)

Lemma shutdown_eq (w : World Store) :
  shutdown w =
  Returns tt
    match node (rs w) with
    | Some _ =>
      with_rs (set_node (Some {| shutdown_requested := true |}))
        (with_call NodeShutdown
           (with_rs (set_shut_down true) (with_call (LogInfo "Replication state shutdown.") w)))
    | None => with_rs (set_shut_down true) (with_call (LogInfo "Replication state shutdown.") w)
    end.
Proof.
  destruct w as [[[n |] ? ? ? ? ? ? ? ? ? ? ? ? ?] ? ? ?]; reflexivity.
Qed.

Lemma join_eq (w : World Store) :
  join w =
  match node (rs w) with
  | None => Returns tt w
  | Some n =>
    if shutdown_requested n
    then Returns tt (with_rs (set_node None) (with_call NodeDelete (with_call NodeJoin w)))
    else Blocks (with_call NodeJoin w)
  end.
Proof.
  destruct w as [[[[[|]] |] ? ? ? ? ? ? ? ? ? ? ? ? ?] ? ? ?]; reflexivity.
Qed.

Lemma join_null (w : World Store) : node (rs w) = None -> join w = Returns tt w.
Proof.
  intros H. rewrite join_eq, H. reflexivity.
Qed.

Lemma join_after_shutdown (w : World Store) :
  bind shutdown (fun _ => join) w =
  Returns tt
    match node (rs w) with
    | Some _ =>
      with_rs (set_node None)
        (with_call NodeDelete
           (with_call NodeJoin
              (with_rs (set_node (Some {| shutdown_requested := true |}))
                 (with_call NodeShutdown
                    (with_rs (set_shut_down true)
                       (with_call (LogInfo "Replication state shutdown.") w))))))
    | None => with_rs (set_shut_down true) (with_call (LogInfo "Replication state shutdown.") w)
    end.
Proof.
  unfold bind at 1. rewrite shutdown_eq.
  destruct (node (rs w)) eqn:E; rewrite join_eq; simpl; [reflexivity |].
  rewrite E. reflexivity.
Qed.

Lemma deletes_with_call (c : call) (w : World Store) :
  deletes (with_call c w) = (deletes w + if is_delete c then 1 else 0)%nat.
Proof.
  unfold deletes, with_call. simpl. rewrite filter_app, length_app. simpl.
  destruct (is_delete c); reflexivity.
Qed.

Lemma teardown_step (m : method) (w : World Store) :
  is_teardown m = true ->
  (deletes (state_of (invoke m w)) + node_count (state_of (invoke m w))
   <= deletes w + node_count w)%nat.
Proof.
  destruct m; simpl; try discriminate; intros _.
  - rewrite shutdown_eq. unfold node_count.
    destruct (node (rs w)) eqn:E; simpl; rewrite ?E; unfold deletes; simpl;
      rewrite ?filter_app, ?length_app; simpl; lia.
  - rewrite join_eq. unfold node_count.
    destruct (node (rs w)) as [n |] eqn:E; simpl; rewrite ?E; [| lia].
    destruct (shutdown_requested n); simpl; rewrite ?E; unfold deletes; simpl;
      rewrite ?filter_app, ?length_app; simpl; lia.
Qed.

Lemma teardown_deletes (ms : list method) :
  forall w : World Store,
    forallb is_teardown ms = true ->
    (deletes (state_of (invoke_all ms w)) + node_count (state_of (invoke_all ms w))
     <= deletes w + node_count w)%nat.
Proof.
  induction ms as [| m ms IH]; intros w Hms; simpl in *; [lia |].
  apply andb_prop in Hms. destruct Hms as [Hm Hms].
  pose proof (teardown_step m w Hm) as Hstep.
  unfold bind. destruct (invoke m w) as [[] w1 | w1 | w1 | w1]; simpl in *; try lia.
  specialize (IH w1 Hms). lia.
Qed.

(** C8. [join] returns only once the node has been asked to stop and is
    down; it then deletes the handle and nulls the member.  It is
    idempotent, it returns when called after [shutdown], a call on a
    null member leaves the state unchanged, and no sequence of [join]
    and [shutdown] calls deletes more than once. *)
Theorem join_idempotent_and_safe_after_shutdown (w : World Store) :
  bind join (fun _ => join) w = join w
  /\ (node (rs w) = None -> join w = Returns tt w)
  /\ (forall w', join w = Returns tt w' ->
        node (rs w') = None
        /\ join w' = Returns tt w'
        /\ forall n, node (rs w) = Some n ->
             shutdown_requested n = true
             /\ calls w' = calls w ++ [NodeJoin; NodeDelete])
  /\ (forall n, node (rs w) = Some n -> shutdown_requested n = false ->
        join w = Blocks (with_call NodeJoin w))
  /\ (exists w', bind shutdown (fun _ => join) w = Returns tt w'
        /\ node (rs w') = None
        /\ shut_down (rs w') = true
        /\ deletes w' = (deletes w + node_count w)%nat)
  /\ bind join (fun _ => bind shutdown (fun _ => join)) w
     = bind join (fun _ => shutdown) w
  /\ (forall ms, forallb is_teardown ms = true ->
        (deletes (state_of (invoke_all ms w)) <= deletes w + node_count w)%nat).
Proof.
  split; [| split; [| split; [| split; [| split; [| split]]]]].
  - unfold bind. rewrite join_eq.
    destruct (node (rs w)) as [n |] eqn:E.
    + destruct (shutdown_requested n); [| reflexivity].
      rewrite join_eq. reflexivity.
    + rewrite join_eq, E. reflexivity.
  - apply join_null.
  - intros w' H. rewrite join_eq in H.
    destruct (node (rs w)) as [n |] eqn:E.
    + destruct (shutdown_requested n) eqn:R; inversion H.
      split; [reflexivity |]. split; [apply join_null; reflexivity |].
      intros n' Hn'. inversion Hn'. subst n'. split; [assumption |].
      simpl. rewrite <- app_assoc. reflexivity.
    + inversion H. subst w'.
      split; [assumption |]. split; [apply join_null; assumption |].
      intros n' Hn'. discriminate.
  - intros n Hn Hreq. rewrite join_eq, Hn, Hreq. reflexivity.
  - rewrite join_after_shutdown. eexists. split; [reflexivity |].
    unfold node_count, deletes. destruct (node (rs w)) eqn:E; simpl.
    + split; [reflexivity |]. split; [reflexivity |].
      rewrite !filter_app, !length_app. simpl. lia.
    + split; [assumption |]. split; [reflexivity |].
      rewrite filter_app, length_app. simpl. lia.
  - unfold bind at 1 3. rewrite join_eq.
    destruct (node (rs w)) as [n |] eqn:E.
    + destruct (shutdown_requested n); [| reflexivity].
      rewrite join_after_shutdown, shutdown_eq. reflexivity.
    + rewrite join_after_shutdown, shutdown_eq, E. reflexivity.
  - intros ms Hms. pose proof (teardown_deletes ms w Hms). lia.
Qed.

(** ** Leadership callbacks *)

Ltac destruct_world w :=
  let n := fresh "n" in
  let flag := fresh "flag" in
  let rdy := fresh "rdy" in
  destruct w as [[n ? ? ? ? ? ? ? flag ? ? ? ? rdy] ? ? ?];
  destruct n as [[[|]] |].

Lemma write_eq (request : http_req) (w : World Store) :
  write request w =
  map_state (fun s => with_rs (fun _ => s) (with_call (CallWrite request) w))
            (write_impl request (rs w)).
Proof.
  reflexivity.
Qed.

Lemma write_calls (request : http_req) (w : World Store) :
  calls (state_of (write request w)) = calls w ++ [CallWrite request].
Proof.
  rewrite write_eq. destruct (write_impl request (rs w)); reflexivity.
Qed.

Lemma on_leader_start_without_flag (term : Z) (w : World Store) :
  create_init_db_snapshot (rs w) = false ->
  on_leader_start term w =
  Returns tt (with_call (LogInfo "Node becomes leader, term: ")
                (with_rs (set_leader_term term) w)).
Proof.
  intros Hflag. destruct_world w; simpl in Hflag; subst; reflexivity.
Qed.

Lemma on_leader_start_calls (term : Z) (w : World Store) :
  filter is_write (calls_during (on_leader_start term) w) =
  if create_init_db_snapshot (rs w) then [CallWrite init_snapshot_request] else [].
Proof.
  destruct (create_init_db_snapshot (rs w)) eqn:Hflag.
  - unfold calls_during, on_leader_start. unfold_monad. simpl. rewrite Hflag.
    rewrite write_eq. simpl.
    destruct (write_impl init_snapshot_request (set_leader_term term (rs w)));
      simpl; rewrite <- ?app_assoc, skipn_calls; reflexivity.
  - unfold calls_during. rewrite on_leader_start_without_flag by assumption.
    simpl. rewrite skipn_calls. reflexivity.
Qed.

(** C9. On becoming leader the object issues the [INIT_SNAPSHOT] dummy
    write exactly when its member [create_init_db_snapshot], which the
    constructor receives, is set; with the flag unset it stores the term,
    logs and returns.  No member function of the header assigns the
    flag. *)
Theorem dummy_write_iff_flag (term : Z) (w : World Store) :
  filter is_write (calls_during (on_leader_start term) w)
  = (if create_init_db_snapshot (rs w) then [CallWrite init_snapshot_request] else [])
  /\ (In (CallWrite init_snapshot_request) (calls_during (on_leader_start term) w)
      <-> create_init_db_snapshot (rs w) = true)
  /\ (create_init_db_snapshot (rs w) = false ->
        on_leader_start term w
        = Returns tt (with_call (LogInfo "Node becomes leader, term: ")
                        (with_rs (set_leader_term term) w)))
  /\ (forall m, reaches_write m w = false ->
        create_init_db_snapshot (rs (state_of (invoke m w)))
        = create_init_db_snapshot (rs w)).
Proof.
  split; [apply on_leader_start_calls |].
  split; [| split; [apply on_leader_start_without_flag |]].
  - pose proof (on_leader_start_calls term w) as Hcalls.
    destruct (create_init_db_snapshot (rs w)); split; intros H;
      try reflexivity; try discriminate.
    + assert (Hin : In (CallWrite init_snapshot_request)
                       (filter is_write (calls_during (on_leader_start term) w)))
        by (rewrite Hcalls; left; reflexivity).
      apply filter_In in Hin. exact (proj1 Hin).
    + assert (Hin : In (CallWrite init_snapshot_request)
                       (filter is_write (calls_during (on_leader_start term) w)))
        by (apply filter_In; split; [assumption | reflexivity]).
      rewrite Hcalls in Hin. destruct Hin.
  - intros m Hm. destruct m; simpl in Hm; try discriminate; simpl.
    + rewrite shutdown_eq. destruct (node (rs w)); reflexivity.
    + rewrite join_eq. destruct (node (rs w)) as [[[|]] |]; reflexivity.
    + destruct_world w; destruct rdy; reflexivity.
    + reflexivity.
    + rewrite on_leader_start_without_flag by assumption. reflexivity.
    + reflexivity.
    + reflexivity.
    + reflexivity.
    + reflexivity.
    + reflexivity.
    + reflexivity.
Qed.

(** C10. [shutdown] never dereferences a null [node]: it always
    returns with the [shut_down] flag set, and on a null member it makes
    no call on the consensus node at all. *)
Theorem shutdown_null_node_safe (w : World Store) :
  (exists w', shutdown w = Returns tt w' /\ shut_down (rs w') = true)
  /\ (node (rs w) = None ->
        shutdown w
        = Returns tt (with_rs (set_shut_down true)
                        (with_call (LogInfo "Replication state shutdown.") w))
        /\ node (rs (state_of (shutdown w))) = None
        /\ shut_down (rs (state_of (shutdown w))) = true
        /\ filter is_node_call (calls_during shutdown w) = [])
  /\ (forall w1, join w = Returns tt w1 ->
        exists w2,
          shutdown w1 = Returns tt w2
          /\ node (rs w2) = None
          /\ shut_down (rs w2) = true
          /\ filter is_node_call (calls_during shutdown w1) = [])
  /\ (forall m, reaches_write m w = false ->
        shut_down (rs w) = true ->
        shut_down (rs (state_of (invoke m w))) = true).
Proof.
  assert (Hnull : forall v : World Store, node (rs v) = None ->
            shutdown v
            = Returns tt (with_rs (set_shut_down true)
                            (with_call (LogInfo "Replication state shutdown.") v))
            /\ node (rs (state_of (shutdown v))) = None
            /\ shut_down (rs (state_of (shutdown v))) = true
            /\ filter is_node_call (calls_during shutdown v) = []).
  { intros v Hv. unfold calls_during. rewrite shutdown_eq, Hv. simpl.
    repeat split; [assumption |].
    rewrite skipn_calls. reflexivity. }
  split; [| split; [| split]].
  - rewrite shutdown_eq. eexists. split; [reflexivity |].
    destruct (node (rs w)); reflexivity.
  - apply Hnull.
  - intros w1 Hjoin.
    assert (Hw1 : node (rs w1) = None).
    { rewrite join_eq in Hjoin. destruct (node (rs w)) as [n |] eqn:E.
      - destruct (shutdown_requested n); inversion Hjoin. reflexivity.
      - inversion Hjoin. subst w1. assumption. }
    destruct (Hnull w1 Hw1) as [Hrun [Hnode [Hflag Hcalls]]].
    eexists. split; [exact Hrun |]. rewrite Hrun in Hnode, Hflag.
    split; [exact Hnode | split; [exact Hflag | exact Hcalls]].
  - intros m Hm Hset. destruct m; simpl in Hm; try discriminate; simpl;
      try assumption.
    + rewrite shutdown_eq. destruct (node (rs w)); reflexivity.
    + rewrite join_eq. destruct (node (rs w)) as [[[|]] |]; assumption.
    + destruct_world w; destruct rdy; assumption.
    + rewrite on_leader_start_without_flag by assumption. assumption.
Qed.

Section LeadershipTerm.

(** [write] is not a leadership callback: its body leaves the stored
    term alone. *)
Hypothesis write_keeps_term :
  forall request s, leader_term (state_of (write_impl request s)) = leader_term s.

Lemma write_leader_term (request : http_req) (w : World Store) :
  leader_term (rs (state_of (write request w))) = leader_term (rs w).
Proof.
  rewrite write_eq. pose proof (write_keeps_term request (rs w)) as H.
  destruct (write_impl request (rs w)); simpl in *; exact H.
Qed.

Lemma on_leader_start_term (term : Z) (w : World Store) :
  leader_term (rs (state_of (on_leader_start term w))) = term.
Proof.
  destruct (create_init_db_snapshot (rs w)) eqn:Hflag.
  - unfold on_leader_start. unfold_monad. simpl. rewrite Hflag.
    pose proof (write_leader_term init_snapshot_request
                  (with_rs (set_leader_term term) w)) as H.
    destruct (write init_snapshot_request (with_rs (set_leader_term term) w));
      simpl in *; exact H.
  - rewrite on_leader_start_without_flag by assumption. reflexivity.
Qed.

Lemma invoke_leader_term (m : method) (w : World Store) :
  leader_term (rs (state_of (invoke m w))) =
  match m with
  | OnLeaderStart term => term
  | OnLeaderStop => -1
  | _ => leader_term (rs w)
  end.
Proof.
  destruct m; simpl; try reflexivity.
  - rewrite shutdown_eq. destruct (node (rs w)); reflexivity.
  - rewrite join_eq. destruct (node (rs w)) as [[[|]] |]; reflexivity.
  - destruct_world w; destruct rdy; reflexivity.
  - apply write_leader_term.
  - apply on_leader_start_term.
Qed.

Lemma has_leader_term_iff (s : ReplicationState Store) :
  has_leader_term s = true <-> leader_term s > 0.
Proof.
  unfold has_leader_term. rewrite Z.ltb_lt. lia.
Qed.

Lemma invoke_all_leadership (ms : list method) :
  forall w w' : World Store,
    positive_terms ms = true ->
    term_well_formed (rs w) ->
    invoke_all ms w = Returns tt w' ->
    has_leader_term (rs w') = believes_leader (has_leader_term (rs w)) ms
    /\ term_well_formed (rs w').
Proof.
  induction ms as [| m ms IH]; intros w w' Hpos Hwf Hrun; simpl in Hrun.
  - inversion Hrun. subst. split; [reflexivity | assumption].
  - unfold bind in Hrun. pose proof (invoke_leader_term m w) as Hterm.
    destruct (invoke m w) as [[] w1 | w1 | w1 | w1]; try discriminate.
    simpl in Hterm.
    assert (Hstep : term_well_formed (rs w1)
                    /\ believes_leader (has_leader_term (rs w)) (m :: ms)
                       = believes_leader (has_leader_term (rs w1)) ms
                    /\ positive_terms ms = true).
    { unfold term_well_formed, has_leader_term in *.
      destruct m; simpl in *; rewrite Hterm;
        try (split; [assumption | split; [reflexivity | assumption]]).
      - apply andb_prop in Hpos. destruct Hpos as [Hp Hpos].
        rewrite Hp. apply Z.ltb_lt in Hp.
        split; [right; lia | split; [reflexivity | assumption]].
      - split; [left; reflexivity | split; [reflexivity | assumption]]. }
    destruct Hstep as [Hwf1 [Hbel Hpos1]].
    rewrite Hbel. apply (IH w1 w' Hpos1 Hwf1 Hrun).
Qed.

End LeadershipTerm.

Lemma header_keeps_leader_term (m : method) (w : World Store) :
  is_leadership_callback m = false ->
  reaches_write m w = false ->
  leader_term (rs (state_of (invoke m w))) = leader_term (rs w).
Proof.
  intros Hcb Hwrite. destruct m; simpl in *; try discriminate; try reflexivity.
  - rewrite shutdown_eq. destruct (node (rs w)); reflexivity.
  - rewrite join_eq. destruct (node (rs w)) as [[[|]] |]; reflexivity.
  - destruct_world w; destruct rdy; reflexivity.
Qed.

(** C7. [has_leader_term] is true exactly when the stored term is
    greater than 0; [on_leader_stop] stores -1; [on_leader_start] stores
    the term it is given; no other member function defined in the header
    changes the stored term.  Hence, the body of [write] leaving the
    term alone and the consensus library announcing positive terms only,
    the stored term is positive exactly while the last leadership
    callback was [on_leader_start], and -1 otherwise. *)
Theorem leader_term_tracks_leadership :
  (forall s : ReplicationState Store, has_leader_term s = true <-> leader_term s > 0)
  /\ (forall w : World Store,
        on_leader_stop w
        = Returns tt (with_call (LogInfo "Node stepped down : ")
                        (with_rs (set_leader_term (-1)) w)))
  /\ (forall term w,
        create_init_db_snapshot (rs w) = false ->
        on_leader_start term w
        = Returns tt (with_call (LogInfo "Node becomes leader, term: ")
                        (with_rs (set_leader_term term) w)))
  /\ (forall m w,
        is_leadership_callback m = false ->
        reaches_write m w = false ->
        leader_term (rs (state_of (invoke m w))) = leader_term (rs w))
  /\ ((forall request s, leader_term (state_of (write_impl request s)) = leader_term s) ->
      (forall term w, leader_term (rs (state_of (on_leader_start term w))) = term)
      /\ (forall m w, is_leadership_callback m = false ->
            leader_term (rs (state_of (invoke m w))) = leader_term (rs w))
      /\ (forall ms w w',
            positive_terms ms = true ->
            leader_term (rs w) = -1 \/ leader_term (rs w) > 0 ->
            invoke_all ms w = Returns tt w' ->
            (leader_term (rs w') > 0
             <-> believes_leader (has_leader_term (rs w)) ms = true)
            /\ (leader_term (rs w') = -1
                <-> believes_leader (has_leader_term (rs w)) ms = false))).
Proof.
  split; [exact has_leader_term_iff |].
  split; [reflexivity |].
  split; [exact on_leader_start_without_flag |].
  split; [exact header_keeps_leader_term |].
  intros Hwrite.
  split; [exact (on_leader_start_term Hwrite) |].
  split.
  - intros m w Hm. rewrite (invoke_leader_term Hwrite).
    destruct m; try reflexivity; discriminate.
  - intros ms w w' Hpos Hwf Hrun.
    destruct (@invoke_all_leadership Hwrite ms w w' Hpos Hwf Hrun) as [Hbel Hwf'].
    rewrite <- Hbel. unfold term_well_formed in Hwf'.
    pose proof (has_leader_term_iff (rs w')) as Hiff.
    destruct (has_leader_term (rs w')).
    + assert (Hp : leader_term (rs w') > 0) by (apply Hiff; reflexivity).
      split; split; intros H;
        try reflexivity; try assumption; try discriminate; lia.
    + assert (Hn : ~ leader_term (rs w') > 0)
        by (intros Hp; apply Hiff in Hp; discriminate).
      split; split; intros H; try reflexivity; try discriminate.
      * contradiction.
      * destruct Hwf' as [Hm | Hp]; [assumption | contradiction].
Qed.

(** ** The Apply Pipeline *)

Lemma apply_entry_ok (e : Entry) (op : http_req) (st' : Store) (response : http_res)
  (w : World Store) :
  deserialize (e_data e) = Some op ->
  store_apply op (store (rs w)) = Some (st', response) ->
  apply_entry e w = Returns tt (applied e op st' response w).
Proof.
  intros Hop Hst. unfold apply_entry, applied, refresh_catchup_status, resolve.
  rewrite Hop. unfold_monad. simpl. rewrite Hst.
  destruct (e_done e); reflexivity.
Qed.

Lemma apply_entry_fails (e : Entry) (w : World Store) :
  entry_fails e (store (rs w)) = true ->
  exists w' msg,
    apply_entry e w = Halts w'
    /\ rs w' = rs w
    /\ applied_index w' = applied_index w
    /\ last (calls w') NotifyAll = LogError msg.
Proof.
  unfold entry_fails, apply_entry. intros Hfail.
  destruct (deserialize (e_data e)) as [op |].
  - unfold_monad. simpl.
    destruct (store_apply op (store (rs w))) as [[st' response] |]; [discriminate |].
    eexists. exists "store fault". simpl.
    repeat split. apply last_last.
  - unfold_monad. simpl. eexists. exists "malformed entry". simpl.
    repeat split. apply last_last.
Qed.

Lemma apply_entry_returns (e : Entry) (w w' : World Store) :
  apply_entry e w = Returns tt w' ->
  exists op st' response,
    deserialize (e_data e) = Some op
    /\ store_apply op (store (rs w)) = Some (st', response)
    /\ w' = applied e op st' response w.
Proof.
  intros Hrun. destruct (entry_fails e (store (rs w))) eqn:Hfail.
  - destruct (apply_entry_fails e w Hfail) as [w1 [msg [Hhalt _]]]. congruence.
  - unfold entry_fails in Hfail.
    destruct (deserialize (e_data e)) as [op |] eqn:Hop; [| discriminate].
    destruct (store_apply op (store (rs w))) as [[st' response] |] eqn:Hst;
      [| discriminate].
    exists op, st', response. rewrite (apply_entry_ok e w Hop Hst) in Hrun.
    inversion Hrun. split; [reflexivity | split; [assumption | reflexivity]].
Qed.

Lemma applied_facts (e : Entry) (op : http_req) (st' : Store) (response : http_res)
  (w : World Store) :
  store (rs (applied e op st' response w)) = st'
  /\ applied_index (applied e op st' response w) = applied_index w + 1
  /\ (exists cs, calls (applied e op st' response w) = calls w ++ StoreApply op :: cs
                 /\ store_operations cs = [])
  /\ readiness_current (applied e op st' response w).
Proof.
  unfold applied, readiness_current. destruct (e_done e); simpl.
  - repeat split. exists [ClosureRun n response]. rewrite <- app_assoc. split; reflexivity.
  - repeat split. exists []. split; reflexivity.
Qed.

Lemma on_apply_app (i1 i2 : list Entry) (w : World Store) :
  on_apply (i1 ++ i2) w = bind (on_apply i1) (fun _ => on_apply i2) w.
Proof.
  revert w. induction i1 as [| e i1 IH]; intros w; simpl; [reflexivity |].
  unfold bind at 1 2 3. destruct (apply_entry e w) as [[] w1 | w1 | w1 | w1];
    try reflexivity.
  rewrite IH. reflexivity.
Qed.

Lemma on_apply_outcome (iter : list Entry) :
  forall w : World Store,
    match replay iter (store (rs w)) with
    | Some st' =>
      exists w' cs,
        on_apply iter w = Returns tt w'
        /\ store (rs w') = st'
        /\ applied_index w' = applied_index w + Z.of_nat (List.length iter)
        /\ calls w' = calls w ++ cs
        /\ map Some (store_operations cs) = map (fun e => deserialize (e_data e)) iter
    | None =>
      exists w',
        on_apply iter w = Halts w'
        /\ applied_index w <= applied_index w' < applied_index w + Z.of_nat (List.length iter)
    end.
Proof.
  induction iter as [| e rest IH]; intros w.
  - simpl. exists w, []. rewrite app_nil_r. repeat split. lia.
  - cbn [replay on_apply]. unfold bind.
    destruct (deserialize (e_data e)) as [op |] eqn:Hop.
    + destruct (store_apply op (store (rs w))) as [[st1 response] |] eqn:Hst.
      * rewrite (apply_entry_ok e w Hop Hst).
        destruct (applied_facts e op st1 response w)
          as [Hstore [Hindex [[cs1 [Hcalls Hops]] _]]].
        specialize (IH (applied e op st1 response w)). rewrite Hstore in IH.
        destruct (replay rest st1) as [st' |].
        -- destruct IH as [w' [cs [Hrun [Hst' [Hidx [Hcs Hmap]]]]]].
           exists w', (StoreApply op :: cs1 ++ cs). rewrite Hrun.
           repeat split; try assumption.
           ++ rewrite Hidx, Hindex. cbn [List.length]. lia.
           ++ rewrite Hcs, Hcalls, <- app_assoc. reflexivity.
           ++ cbn [store_operations map]. rewrite store_operations_app, Hops, Hop.
              simpl. rewrite Hmap. reflexivity.
        -- destruct IH as [w' [Hrun Hidx]]. exists w'. rewrite Hrun.
           split; [reflexivity |]. rewrite Hindex in Hidx. cbn [List.length]. lia.
      * assert (Hfail : entry_fails e (store (rs w)) = true)
          by (unfold entry_fails; rewrite Hop, Hst; reflexivity).
        destruct (apply_entry_fails e w Hfail) as [w' [msg [Hhalt [_ [Hidx _]]]]].
        exists w'. rewrite Hhalt. split; [reflexivity |]. cbn [List.length]. lia.
    + assert (Hfail : entry_fails e (store (rs w)) = true)
        by (unfold entry_fails; rewrite Hop; reflexivity).
      destruct (apply_entry_fails e w Hfail) as [w' [msg [Hhalt [_ [Hidx _]]]]].
      exists w'. rewrite Hhalt. split; [reflexivity |]. cbn [List.length]. lia.
Qed.

Lemma invoke_applied_index (m : method) (w : World Store) :
  applied_index (state_of (invoke m w)) = applied_index w.
Proof.
  destruct m; simpl; try reflexivity.
  - rewrite shutdown_eq. destruct (node (rs w)); reflexivity.
  - rewrite join_eq. destruct (node (rs w)) as [[[|]] |]; reflexivity.
  - destruct_world w; destruct rdy; reflexivity.
  - rewrite write_eq. destruct (write_impl request (rs w)); reflexivity.
  - destruct (create_init_db_snapshot (rs w)) eqn:Hflag.
    + unfold on_leader_start. unfold_monad. simpl. rewrite Hflag, write_eq. simpl.
      destruct (write_impl init_snapshot_request (set_leader_term term (rs w)));
        reflexivity.
    + rewrite on_leader_start_without_flag by assumption. reflexivity.
Qed.

(** C1. [on_apply] hands the entries of the iterator to the store in
    commit order, one at a time and none skipped: when it returns, the
    store is the replay of the whole sequence, the operations the store
    received are the decoded entries in their order, and AppliedIndex
    has advanced by one per entry.  It returns whenever every entry can
    be applied, AppliedIndex never decreases, and no other member
    function of the header changes it. *)
Theorem on_apply_in_commit_order (iter : list Entry) (w : World Store) :
  (forall w', on_apply iter w = Returns tt w' ->
      replay iter (store (rs w)) = Some (store (rs w'))
      /\ map Some (store_operations (calls_during (on_apply iter) w))
         = map (fun e => deserialize (e_data e)) iter
      /\ applied_index w' = applied_index w + Z.of_nat (List.length iter))
  /\ (forall st', replay iter (store (rs w)) = Some st' ->
      exists w', on_apply iter w = Returns tt w' /\ store (rs w') = st')
  /\ (forall i1 i2, iter = i1 ++ i2 ->
      on_apply iter w = bind (on_apply i1) (fun _ => on_apply i2) w)
  /\ (forall e w', apply_entry e w = Returns tt w' ->
      applied_index w' = applied_index w + 1)
  /\ applied_index w <= applied_index (state_of (on_apply iter w))
  /\ (forall m, applied_index (state_of (invoke m w)) = applied_index w).
Proof.
  pose proof (on_apply_outcome iter w) as Hout.
  split; [| split; [| split; [| split; [| split]]]].
  - intros w' Hrun. unfold calls_during. rewrite Hrun. simpl.
    destruct (replay iter (store (rs w))) as [st' |].
    + destruct Hout as [w1 [cs [Hrun1 [Hst [Hidx [Hcs Hmap]]]]]].
      rewrite Hrun in Hrun1. inversion Hrun1. subst w1.
      rewrite Hst, Hcs, skipn_calls. repeat split; assumption.
    + destruct Hout as [w1 [Hhalt _]]. congruence.
  - intros st' Hreplay. rewrite Hreplay in Hout.
    destruct Hout as [w' [cs [Hrun [Hst _]]]]. exists w'. split; assumption.
  - intros i1 i2 Hsplit. subst iter. apply on_apply_app.
  - intros e w' Hrun.
    destruct (apply_entry_returns e w Hrun) as [op [st' [response [_ [_ Hw']]]]].
    subst w'. apply applied_facts.
  - destruct (replay iter (store (rs w))) as [st' |].
    + destruct Hout as [w' [cs [Hrun [_ [Hidx _]]]]]. rewrite Hrun. simpl. lia.
    + destruct Hout as [w' [Hhalt Hidx]]. rewrite Hhalt. simpl. lia.
  - intros m. apply invoke_applied_index.
Qed.

(** C2. An entry that cannot be applied, being malformed or faulting in
    the store, is fatal: [on_apply] logs an error and halts at that
    entry, with exactly the entries before it applied and nothing after
    it.  [on_apply] returns only when every entry was applied, and it
    ends in no other way than returning or halting. *)
Theorem apply_failure_is_fatal :
  (forall (i1 : list Entry) (e : Entry) (i2 : list Entry) (w w1 : World Store),
      on_apply i1 w = Returns tt w1 ->
      entry_fails e (store (rs w1)) = true ->
      exists w' msg,
        on_apply (i1 ++ e :: i2) w = Halts w'
        /\ store (rs w') = store (rs w1)
        /\ replay i1 (store (rs w)) = Some (store (rs w'))
        /\ applied_index w' = applied_index w + Z.of_nat (List.length i1)
        /\ last (calls w') NotifyAll = LogError msg)
  /\ (forall (iter : list Entry) (w : World Store),
      match on_apply iter w with
      | Returns _ w' => replay iter (store (rs w)) = Some (store (rs w'))
      | Halts w' => replay iter (store (rs w)) = None
      | Blocks _ | NullDeref _ => False
      end).
Proof.
  split.
  - intros i1 e i2 w w1 Hrun Hfail.
    destruct (apply_entry_fails e w1 Hfail) as [w' [msg [Hhalt [Hrs [Hidx Hlog]]]]].
    exists w', msg. rewrite on_apply_app. unfold bind at 1. rewrite Hrun.
    cbn [on_apply]. unfold bind. rewrite Hhalt.
    pose proof (on_apply_outcome i1 w) as Hout.
    destruct (replay i1 (store (rs w))) as [st1 |].
    + destruct Hout as [w2 [cs [Hrun2 [Hst [Hidx2 _]]]]].
      rewrite Hrun in Hrun2. inversion Hrun2. subst w2.
      rewrite Hrs, Hidx, Hst, Hidx2. repeat split. assumption.
    + destruct Hout as [w2 [Hhalt2 _]]. congruence.
  - intros iter w. pose proof (on_apply_outcome iter w) as Hout.
    destruct (replay iter (store (rs w))) as [st' |].
    + destruct Hout as [w' [cs [Hrun [Hst _]]]]. rewrite Hrun, Hst. reflexivity.
    + destruct Hout as [w' [Hhalt _]]. rewrite Hhalt. reflexivity.
Qed.

(** ** The Catch-Up Monitor *)

Lemma caught_up_when_true (min_diff threshold l k : Z) :
  caught_up_when min_diff threshold l k = true <->
  (k - l <= min_diff \/ (threshold_ratio threshold <= inject_Z l / inject_Z k)%Q).
Proof.
  unfold caught_up_when. rewrite orb_true_iff, Z.leb_le, Qle_bool_iff. reflexivity.
Qed.

Lemma caught_up_when_false (min_diff threshold l k : Z) :
  caught_up_when min_diff threshold l k = false <->
  (k - l > min_diff /\ (inject_Z l / inject_Z k < threshold_ratio threshold)%Q).
Proof.
  unfold caught_up_when. rewrite orb_false_iff, Z.leb_gt.
  split; intros [Hgap Hratio]; (split; [lia |]).
  - apply Qnot_le_lt. intros Hle. apply Qle_bool_iff in Hle. congruence.
  - destruct (Qle_bool (threshold_ratio threshold) (inject_Z l / inject_Z k)) eqn:Hb;
      [| reflexivity].
    apply Qle_bool_iff in Hb. apply Qlt_not_le in Hratio. contradiction.
Qed.

Lemma on_apply_readiness (iter : list Entry) :
  forall w w' : World Store,
    iter <> [] ->
    on_apply iter w = Returns tt w' ->
    readiness_current w'.
Proof.
  induction iter as [| e rest IH]; intros w w' Hne Hrun; [contradiction |].
  cbn [on_apply] in Hrun. unfold bind in Hrun.
  destruct (apply_entry e w) as [[] w1 | w1 | w1 | w1] eqn:He; try discriminate.
  destruct rest as [| e' rest'].
  - simpl in Hrun. inversion Hrun. subst w'.
    destruct (apply_entry_returns e w He) as [op [st' [response [_ [_ Hw1]]]]].
    subst w1. apply applied_facts.
  - apply (IH w1 w'); [discriminate | assumption].
Qed.

(** C3. The readiness rule is true exactly when the gap is at most
    [catchup_min_sequence_diff] or the ratio of the local to the
    leader's sequence reaches the threshold, and false exactly when
    both fail; the flag [is_ready] returns is recomputed by that rule
    after every applied entry, at the sequences then current. *)
Theorem readiness_rule :
  (forall min_diff threshold l k,
      caught_up_when min_diff threshold l k = true <->
      (k - l <= min_diff \/ (threshold_ratio threshold <= inject_Z l / inject_Z k)%Q))
  /\ (forall min_diff threshold l k,
      caught_up_when min_diff threshold l k = false <->
      (k - l > min_diff /\ (inject_Z l / inject_Z k < threshold_ratio threshold)%Q))
  /\ (forall (e : Entry) (w w' : World Store),
      apply_entry e w = Returns tt w' ->
      is_ready (rs w')
      = caught_up_when (catchup_min_sequence_diff (rs w))
                       (catch_up_threshold_percentage (rs w))
                       (current_sequence (store (rs w')))
                       (leader_known_sequence w))
  /\ (forall (iter : list Entry) (w w' : World Store),
      iter <> [] ->
      on_apply iter w = Returns tt w' ->
      (is_ready (rs w') = true <->
       (leader_known_sequence w' - current_sequence (store (rs w'))
          <= catchup_min_sequence_diff (rs w')
        \/ (threshold_ratio (catch_up_threshold_percentage (rs w'))
            <= inject_Z (current_sequence (store (rs w')))
               / inject_Z (leader_known_sequence w'))%Q))).
Proof.
  split; [exact caught_up_when_true |].
  split; [exact caught_up_when_false |].
  split.
  - intros e w w' Hrun.
    destruct (apply_entry_returns e w Hrun) as [op [st' [response [_ [_ Hw']]]]].
    subst w'. unfold applied. destruct (e_done e); reflexivity.
  - intros iter w w' Hne Hrun.
    pose proof (@on_apply_readiness iter w w' Hne Hrun) as Hready.
    unfold readiness_current in Hready. rewrite Hready. apply caught_up_when_true.
Qed.

(** ** The inline member functions beyond the claims *)

Lemma wait_eq (w : World Store) :
  wait w = if ready (rs w) then Returns tt (with_rs (set_ready false) w) else Blocks w.
Proof.
  destruct_world w; destruct rdy; reflexivity.
Qed.

Lemma wait_twice_blocks (w : World Store) :
  exists w', bind wait (fun _ => wait) w = Blocks w' /\ ready (rs w') = false.
Proof.
  unfold bind. rewrite wait_eq. destruct (ready (rs w)) eqn:Hready.
  - rewrite wait_eq. simpl. eexists. split; reflexivity.
  - exists w. split; [reflexivity | assumption].
Qed.

Lemma repeat_notify_returns (n : nat) :
  forall w : World Store, exists w', repeat_call n notify w = Returns tt w'.
Proof.
  induction n as [| n IH]; intros w; simpl.
  - exists w. reflexivity.
  - unfold bind. simpl. apply IH.
Qed.

(** X1. [notify] followed by [wait] returns and leaves [ready] false;
    [wait] while [ready] is false waits and changes nothing; and however
    many [notify] calls came first, only one [wait] gets through: the
    second of two [wait]s in a row waits. *)
Theorem notify_releases_one_wait (w : World Store) :
  bind notify (fun _ => wait) w
  = Returns tt (with_rs (set_ready false) (with_call NotifyAll (with_rs (set_ready true) w)))
  /\ (ready (rs w) = false -> wait w = Blocks w)
  /\ (forall n, exists w',
        bind (repeat_call n notify) (fun _ => bind wait (fun _ => wait)) w = Blocks w'
        /\ ready (rs w') = false).
Proof.
  split; [reflexivity | split].
  - intros Hready. rewrite wait_eq, Hready. reflexivity.
  - intros n. destruct (repeat_notify_returns n w) as [w1 Hrun].
    unfold bind at 1. rewrite Hrun. apply wait_twice_blocks.
Qed.

(** X2. No member function whose code is wholly in the header aborts the
    process or dereferences a null [node]: each returns, except that
    [join] waits on a node never asked to stop and [wait] waits while
    [ready] is false. *)
Theorem header_returns_or_waits (m : method) (w : World Store) :
  reaches_write m w = false ->
  match invoke m w with
  | Returns _ _ => blocks_on m w = false
  | Blocks w' => blocks_on m w = true /\ rs w' = rs w
  | Halts _ | NullDeref _ => False
  end.
Proof.
  intros Hm. destruct m; simpl in Hm; try discriminate; simpl; try reflexivity.
  - rewrite shutdown_eq. reflexivity.
  - rewrite join_eq. destruct (node (rs w)) as [[[|]] |]; simpl; auto.
  - rewrite wait_eq. destruct (ready (rs w)); simpl; auto.
  - rewrite on_leader_start_without_flag by assumption. reflexivity.
Qed.

Lemma delete_follows_join_app (cs seg : list call) :
  forall b,
    delete_follows_join b (cs ++ seg)
    = delete_follows_join b cs && delete_follows_join (ends_with_join b cs) seg.
Proof.
  induction cs as [| c cs IH]; intros b; simpl; [reflexivity |].
  destruct c; simpl; rewrite IH; try reflexivity.
  rewrite andb_assoc. reflexivity.
Qed.

Lemma invoke_appends (m : method) (w : World Store) :
  exists seg,
    calls (state_of (invoke m w)) = calls w ++ seg
    /\ forall b, delete_follows_join b seg = true.
Proof.
  destruct m; simpl.
  - rewrite shutdown_eq. destruct (node (rs w)); simpl;
      eexists; (split; [try rewrite <- app_assoc; reflexivity | reflexivity]).
  - rewrite join_eq. destruct (node (rs w)) as [[[|]] |]; simpl.
    + exists [NodeJoin; NodeDelete]. rewrite <- app_assoc. split; reflexivity.
    + exists [NodeJoin]. split; reflexivity.
    + exists []. rewrite app_nil_r. split; reflexivity.
  - rewrite wait_eq. destruct (ready (rs w)); simpl;
      exists []; rewrite app_nil_r; split; reflexivity.
  - exists [NotifyAll]. split; reflexivity.
  - rewrite write_calls. exists [CallWrite request]. split; reflexivity.
  - destruct (create_init_db_snapshot (rs w)) eqn:Hflag.
    + unfold on_leader_start. unfold_monad. simpl. rewrite Hflag, write_eq. simpl.
      destruct (write_impl init_snapshot_request (set_leader_term term (rs w))); simpl;
        eexists; (split; [try rewrite <- app_assoc; reflexivity | reflexivity]).
    + rewrite on_leader_start_without_flag by assumption.
      eexists. split; reflexivity.
  - eexists. split; reflexivity.
  - eexists. split; reflexivity.
  - eexists. split; reflexivity.
  - eexists. split; reflexivity.
  - eexists. split; reflexivity.
  - eexists. split; reflexivity.
Qed.

Lemma invoke_all_appends (ms : list method) :
  forall w : World Store,
    exists seg,
      calls (state_of (invoke_all ms w)) = calls w ++ seg
      /\ forall b, delete_follows_join b seg = true.
Proof.
  induction ms as [| m ms IH]; intros w; simpl.
  - exists []. rewrite app_nil_r. split; reflexivity.
  - destruct (invoke_appends m w) as [seg1 [Hcalls1 Hok1]].
    unfold bind. destruct (invoke m w) as [[] w1 | w1 | w1 | w1]; simpl in *;
      try (exists seg1; split; assumption).
    destruct (IH w1) as [seg2 [Hcalls2 Hok2]].
    exists (seg1 ++ seg2). rewrite Hcalls2, Hcalls1, <- app_assoc.
    split; [reflexivity |].
    intros b. rewrite delete_follows_join_app, Hok1, Hok2. reflexivity.
Qed.

(** X3. Whatever member functions are called and in whatever order, the
    object never executes [delete node] except directly after the
    [node->join()] of the same [join] call. *)
Theorem delete_only_after_join (ms : list method) (w : World Store) :
  delete_follows_join false (calls w) = true ->
  delete_follows_join false (calls (state_of (invoke_all ms w))) = true.
Proof.
  intros Hbefore. destruct (invoke_all_appends ms w) as [seg [Hcalls Hok]].
  rewrite Hcalls, delete_follows_join_app, Hbefore, Hok. reflexivity.
Qed.

Lemma null_node_step (m : method) (w : World Store) :
  outside_write m = true ->
  node (rs w) = None ->
  node (rs (state_of (invoke m w))) = None
  /\ filter is_node_call (calls (state_of (invoke m w))) = filter is_node_call (calls w)
  /\ match invoke m w with
     | Returns _ _ => True
     | Blocks _ => m = Wait
     | Halts _ | NullDeref _ => False
     end.
Proof.
  intros Hm Hnull. destruct m; simpl in Hm; try discriminate; simpl;
    try (split; [assumption | split; [| exact I]];
         rewrite filter_app, app_nil_r; reflexivity).
  - rewrite shutdown_eq, Hnull. simpl.
    split; [assumption | split; [| exact I]].
    rewrite filter_app, app_nil_r. reflexivity.
  - rewrite join_null by assumption. simpl.
    split; [assumption | split; [reflexivity | exact I]].
  - rewrite wait_eq. destruct (ready (rs w)); simpl;
      (split; [assumption | split; reflexivity || exact I]).
Qed.

(** X4. Once the member [node] is null, as [join] leaves it, no member
    function whose code is wholly in the header touches the node again:
    whatever is called, the member stays null, no call on the node is
    made, nothing faults, and only [wait] can keep its caller waiting. *)
Theorem no_node_call_on_null_node (ms : list method) :
  forall w : World Store,
    forallb outside_write ms = true ->
    node (rs w) = None ->
    node (rs (state_of (invoke_all ms w))) = None
    /\ filter is_node_call (calls (state_of (invoke_all ms w)))
       = filter is_node_call (calls w)
    /\ match invoke_all ms w with
       | Returns _ _ => True
       | Blocks _ => In Wait ms
       | Halts _ | NullDeref _ => False
       end.
Proof.
  induction ms as [| m ms IH]; intros w Hms Hnull; simpl in *.
  - split; [assumption | split; [reflexivity | exact I]].
  - apply andb_prop in Hms. destruct Hms as [Hm Hms].
    destruct (null_node_step m w Hm Hnull) as [Hnode [Hcalls Hout]].
    unfold bind. destruct (invoke m w) as [[] w1 | w1 | w1 | w1]; simpl in *;
      try contradiction.
    + destruct (IH w1 Hms Hnode) as [Hnode' [Hcalls' Hout']].
      split; [assumption | split; [congruence |]].
      destruct (invoke_all ms w1); try assumption. right. assumption.
    + split; [assumption | split; [assumption |]]. left. assumption.
Qed.


(** X6. What [is_ready] returns is the member [caught_up], which no
    member function whose code is wholly in the header assigns: in
    particular [notify], which sets the member [ready], does not make
    [is_ready] true. *)
Theorem is_ready_untouched_by_header (m : method) (w : World Store) :
  (reaches_write m w = false ->
     is_ready (rs (state_of (invoke m w))) = is_ready (rs w))
  /\ ready (rs (state_of (notify w))) = true
  /\ is_ready (rs (state_of (notify w))) = is_ready (rs w).
Proof.
  split; [| split; reflexivity].
  intros Hm. destruct m; simpl in Hm; try discriminate; simpl; try reflexivity.
  - rewrite shutdown_eq. destruct (node (rs w)); reflexivity.
  - rewrite join_eq. destruct (node (rs w)) as [[[|]] |]; reflexivity.
  - rewrite wait_eq. destruct (ready (rs w)); reflexivity.
  - rewrite on_leader_start_without_flag by assumption. reflexivity.
Qed.

Lemma shutdown_counts (w : World Store) :
  exists w',
    shutdown w = Returns tt w'
    /\ node_count w' = node_count w
    /\ node_shutdowns w' = (node_shutdowns w + node_count w)%nat.
Proof.
  rewrite shutdown_eq. eexists. split; [reflexivity |].
  unfold node_count, node_shutdowns. destruct (node (rs w)) eqn:E; simpl;
    rewrite ?E, ?filter_app, ?length_app; simpl; split; try reflexivity; lia.
Qed.

(** X7. [shutdown] does not remember that it ran: a second call leaves
    the members as the first did, but while the object holds a node
    every call asks the node again to shut down, so [n] calls make
    [n] such requests on a live node and none on a null one. *)
Theorem shutdown_repeats_node_shutdown (w : World Store) :
  rs (state_of (bind shutdown (fun _ => shutdown) w)) = rs (state_of (shutdown w))
  /\ (forall n, exists w',
        repeat_call n shutdown w = Returns tt w'
        /\ node_shutdowns w' = (node_shutdowns w + n * node_count w)%nat).
Proof.
  split.
  - unfold bind. rewrite shutdown_eq. destruct (node (rs w)) eqn:E;
      rewrite shutdown_eq; simpl; rewrite ?E; reflexivity.
  - intros n. revert w. induction n as [| n IH]; intros w; simpl.
    + exists w. split; [reflexivity | lia].
    + destruct (shutdown_counts w) as [w1 [Hrun [Hnode Hcount]]].
      unfold bind. rewrite Hrun.
      destruct (IH w1) as [w' [Hrun' Hcount']].
      exists w'. split; [assumption |]. rewrite Hcount', Hcount, Hnode. lia.
Qed.

(** X8. Only [notify] releases a caller of [wait]: no other member
    function whose code is wholly in the header sets [ready], and
    [shutdown] in particular neither sets it nor notifies, so a [wait]
    entered after [shutdown] with [ready] false still waits, with the
    [shut_down] flag set. *)
Theorem only_notify_releases_wait (w : World Store) :
  ready (rs w) = false ->
  (forall m, reaches_write m w = false -> m <> Notify ->
     ready (rs (state_of (invoke m w))) = false)
  /\ filter (fun c => match c with NotifyAll => true | _ => false end)
            (calls_during shutdown w) = []
  /\ (exists w', bind shutdown (fun _ => wait) w = Blocks w'
        /\ shut_down (rs w') = true
        /\ ready (rs w') = false)
  /\ (exists w', bind shutdown (fun _ => bind notify (fun _ => wait)) w = Returns tt w').
Proof.
  intros Hready. split; [| split; [| split]].
  - intros m Hm Hnot. destruct m; simpl in Hm; try discriminate; simpl;
      try assumption.
    + rewrite shutdown_eq. destruct (node (rs w)); assumption.
    + rewrite join_eq. destruct (node (rs w)) as [[[|]] |]; assumption.
    + rewrite wait_eq, Hready. assumption.
    + contradiction Hnot. reflexivity.
    + rewrite on_leader_start_without_flag by assumption. assumption.
  - unfold calls_during. rewrite shutdown_eq.
    destruct (node (rs w)); simpl; rewrite <- ?app_assoc, skipn_calls; reflexivity.
  - unfold bind. rewrite shutdown_eq, wait_eq.
    destruct (node (rs w)); simpl; rewrite Hready;
      eexists; (split; [reflexivity | split; [reflexivity | assumption]]).
  - unfold bind at 1. rewrite shutdown_eq. eexists. reflexivity.
Qed.

End ReplicationStateMachine.

(** ** The theorems at the reference instance *)

Example follower_at_900_is_not_ready :
  is_ready (rs (state_of
    (on_apply counter_apply counter_sequence plain_decode percent
       [entry_of 900 "w900"] (follower_at 899)))) = false.
Proof.
  reflexivity.
Qed.

Example follower_at_950_is_ready :
  is_ready (rs (state_of
    (on_apply counter_apply counter_sequence plain_decode percent
       [entry_of 950 "w950"] (follower_at 949)))) = true.
Proof.
  reflexivity.
Qed.

Example join_on_a_running_node_waits :
  join (follower_at 900) = Blocks (with_call NodeJoin (follower_at 900)).
Proof.
  reflexivity.
Qed.

Example leader_start_issues_the_dummy_write :
  calls (state_of (on_leader_start write_returns 4 (follower_at 900)))
  = [CallWrite init_snapshot_request; LogInfo "Node becomes leader, term: "].
Proof.
  reflexivity.
Qed.

Lemma join_idempotent_and_safe_after_shutdown_witness :
  join without_node = Returns tt without_node
  /\ join (follower_at 900) = Blocks (with_call NodeJoin (follower_at 900))
  /\ (deletes (state_of (invoke_all write_returns
                 [Shutdown; Join; Join; Shutdown; Join] (follower_at 900))) <= 1)%nat.
Proof.
  destruct (join_idempotent_and_safe_after_shutdown write_returns without_node)
    as [_ [Hnull _]].
  destruct (join_idempotent_and_safe_after_shutdown write_returns (follower_at 900))
    as [_ [_ [_ [Hblocks [_ [_ Hdeletes]]]]]].
  split; [exact (Hnull eq_refl) |].
  split; [exact (Hblocks {| shutdown_requested := false |} eq_refl eq_refl) |].
  exact (Hdeletes [Shutdown; Join; Join; Shutdown; Join] eq_refl).
Defined.

Lemma shutdown_null_node_safe_witness :
  shutdown without_node
  = Returns tt (with_rs (set_shut_down true)
                  (with_call (LogInfo "Replication state shutdown.") without_node))
  /\ shut_down (rs (state_of (shutdown without_node))) = true
  /\ filter is_node_call (calls_during (@shutdown Z) without_node) = [].
Proof.
  destruct (shutdown_null_node_safe write_returns without_node) as [_ [Hnull _]].
  destruct (Hnull eq_refl) as [Hrun [_ [Hflag Hcalls]]].
  split; [exact Hrun | split; [exact Hflag | exact Hcalls]].
Defined.

Lemma dummy_write_iff_flag_witness :
  on_leader_start write_returns 7 without_node
  = Returns tt (with_call (LogInfo "Node becomes leader, term: ")
                  (with_rs (set_leader_term 7) without_node))
  /\ In (CallWrite init_snapshot_request)
        (calls_during (on_leader_start write_returns 7) (follower_at 900))
  /\ create_init_db_snapshot (rs (state_of (invoke write_returns Notify (follower_at 900))))
     = true.
Proof.
  destruct (dummy_write_iff_flag write_returns 7 without_node) as [_ [_ [Hunset _]]].
  destruct (dummy_write_iff_flag write_returns 7 (follower_at 900))
    as [_ [Hiff [_ Hframe]]].
  split; [exact (Hunset eq_refl) |].
  split; [exact (proj2 Hiff eq_refl) | exact (Hframe Notify eq_refl)].
Defined.

Lemma leader_term_tracks_leadership_witness :
  leader_term (rs (state_of (invoke_all write_returns
     [OnLeaderStart 3; Notify; OnLeaderStop; OnLeaderStart 5; Wait] (follower_at 900)))) > 0
  /\ leader_term (rs (state_of (invoke_all write_returns
     [OnLeaderStart 3; OnLeaderStop; Shutdown] (follower_at 900)))) = -1.
Proof.
  destruct (@leader_term_tracks_leadership Z write_returns) as [_ [_ [_ [_ Hwrite]]]].
  destruct (Hwrite (fun _ _ => eq_refl)) as [_ [_ Htrace]].
  split.
  - apply (Htrace [OnLeaderStart 3; Notify; OnLeaderStop; OnLeaderStart 5; Wait]
             (follower_at 900) _ eq_refl (or_introl eq_refl) eq_refl).
    reflexivity.
  - apply (Htrace [OnLeaderStart 3; OnLeaderStop; Shutdown]
             (follower_at 900) _ eq_refl (or_introl eq_refl) eq_refl).
    reflexivity.
Defined.

Lemma on_apply_in_commit_order_witness :
  replay counter_apply plain_decode [entry_of 901 "a"; entry_of 902 "b"] 900 = Some 902
  /\ map Some (store_operations (calls_during
       (on_apply counter_apply counter_sequence plain_decode percent
          [entry_of 901 "a"; entry_of 902 "b"]) (follower_at 900)))
     = [Some (request_of "POST" "a"); Some (request_of "POST" "b")]
  /\ applied_index (state_of
       (on_apply counter_apply counter_sequence plain_decode percent
          [entry_of 901 "a"; entry_of 902 "b"] (follower_at 900))) = 902.
Proof.
  destruct (on_apply_in_commit_order counter_apply counter_sequence plain_decode percent
              write_returns [entry_of 901 "a"; entry_of 902 "b"] (follower_at 900))
    as [Hreturns _].
  destruct (Hreturns _ eq_refl) as [Hreplay [Hops Hindex]].
  split; [exact Hreplay | split; [exact Hops | exact Hindex]].
Defined.

Lemma apply_failure_is_fatal_witness :
  exists w',
    on_apply counter_apply counter_sequence plain_decode percent
      ([entry_of 901 "a"] ++ entry_of 902 "" :: [entry_of 903 "c"]) (follower_at 900)
    = Halts w'
    /\ store (rs w') = 901
    /\ applied_index w' = 901.
Proof.
  destruct (apply_failure_is_fatal counter_apply counter_sequence plain_decode percent)
    as [Hfatal _].
  destruct (Hfatal [entry_of 901 "a"] (entry_of 902 "") [entry_of 903 "c"]
              (follower_at 900) _ eq_refl eq_refl)
    as [w' [msg [Hhalt [Hstore [_ [Hindex _]]]]]].
  exists w'. split; [exact Hhalt | split; [exact Hstore | exact Hindex]].
Defined.

Lemma readiness_rule_witness :
  is_ready (rs (state_of
    (apply_entry counter_apply counter_sequence plain_decode percent
       (entry_of 950 "w950") (follower_at 949))))
  = caught_up_when percent 50 96 950 1000
  /\ (is_ready (rs (state_of
        (on_apply counter_apply counter_sequence plain_decode percent
           [entry_of 949 "w949"; entry_of 950 "w950"] (follower_at 948)))) = true
      <-> (1000 - 950 <= 50 \/ (percent 96 <= inject_Z 950 / inject_Z 1000)%Q)).
Proof.
  destruct (readiness_rule counter_apply counter_sequence plain_decode percent)
    as [_ [_ [Hentry Hiter]]].
  split.
  - exact (Hentry (entry_of 950 "w950") (follower_at 949) _ eq_refl).
  - exact (Hiter [entry_of 949 "w949"; entry_of 950 "w950"] (follower_at 948)
             (state_of (on_apply counter_apply counter_sequence plain_decode percent
                          [entry_of 949 "w949"; entry_of 950 "w950"] (follower_at 948)))
             (fun E => @nil_cons Entry _ _ (eq_sym E)) eq_refl).
Defined.

Lemma notify_releases_one_wait_witness :
  wait (follower_at 900) = Blocks (follower_at 900)
  /\ exists w',
       bind (repeat_call 3 (@notify Z)) (fun _ => bind (@wait Z) (fun _ => @wait Z))
         (follower_at 900)
       = Blocks w'
       /\ ready (rs w') = false.
Proof.
  destruct (notify_releases_one_wait (follower_at 900)) as [_ [Hblocks Hmany]].
  split; [exact (Hblocks eq_refl) | exact (Hmany 3%nat)].
Defined.

Lemma header_returns_or_waits_witness :
  blocks_on Join (follower_at 900) = true
  /\ blocks_on Shutdown without_node = false.
Proof.
  split.
  - exact (proj1 (header_returns_or_waits write_returns Join (follower_at 900) eq_refl)).
  - exact (header_returns_or_waits write_returns Shutdown without_node eq_refl).
Defined.

Lemma delete_only_after_join_witness :
  delete_follows_join false
    (calls (state_of (invoke_all write_returns
       [Shutdown; Join; OnLeaderStart 2; Join; Shutdown] (follower_at 900)))) = true.
Proof.
  exact (delete_only_after_join write_returns
           [Shutdown; Join; OnLeaderStart 2; Join; Shutdown] (follower_at 900) eq_refl).
Defined.

Lemma no_node_call_on_null_node_witness :
  node (rs (state_of (invoke_all write_returns
     [Shutdown; Join; Notify; Wait; OnLeaderStop; Join] without_node))) = None
  /\ filter is_node_call (calls (state_of (invoke_all write_returns
       [Shutdown; Join; Notify; Wait; OnLeaderStop; Join] without_node))) = [].
Proof.
  destruct (no_node_call_on_null_node write_returns
              [Shutdown; Join; Notify; Wait; OnLeaderStop; Join] without_node
              eq_refl eq_refl) as [Hnode [Hcalls _]].
  split; [exact Hnode | exact Hcalls].
Defined.

Lemma is_ready_untouched_by_header_witness :
  is_ready (rs (state_of (invoke write_returns Shutdown (follower_at 900)))) = false.
Proof.
  exact (proj1 (is_ready_untouched_by_header write_returns Shutdown (follower_at 900))
           eq_refl).
Defined.

Lemma only_notify_releases_wait_witness :
  exists w',
    bind (@shutdown Z) (fun _ => @wait Z) (follower_at 900) = Blocks w'
    /\ shut_down (rs w') = true
    /\ ready (rs w') = false.
Proof.
  destruct (only_notify_releases_wait write_returns (follower_at 900) eq_refl)
    as [_ [_ [Hblocks _]]].
  exact Hblocks.
Defined.
